(** * The test-environment funder of pay.ubq.fi

    A shallow embedding of the [TestFunder] class and of [main] (the script
    stored after the separator in [.github/workflows/knip-reporter.yml]),
    together with an executable model of what the script talks to: the
    [cast] binary, the anvil node behind it and the JSON-RPC liveness probe.

    Conventions.
    - Asynchronous code is sequential here: every [await] is a bind of the
      [Async] monad, which threads the outside world and lets an exception
      escape with the world as it was when it was raised.
    - The fixed pauses ([setTimeout]), the spinner ([loader]) and the console
      have no influence on the control flow and are left out.
    - Decimal strings handed to and printed by [cast] are represented by the
      integers they denote.  The conversion [parseInt] makes to a double is
      kept: a [Number] is [NaN] or an integral double. *)

From Stdlib Require Import ZArith String List Bool Lia.
From stdpp Require Import base gmap strings.
Import ListNotations.

Open Scope string_scope.
Open Scope list_scope.
Open Scope Z_scope.

(** ** JavaScript numbers, as far as the script uses them *)

Module JS.

(** Round an integer to the nearest double (53 significant bits, ties to
    even).  Every token amount is below 2^256, far from the range where a
    double overflows, so infinities do not appear. *)
Definition round53 (z : Z) : Z :=
  let a := Z.abs z in
  if a <? 2 ^ 53 then z
  else
    let e := Z.log2 a - 52 in
    let q := Z.shiftr a e in
    let r := Z.land a (Z.ones e) in
    let half := Z.shiftl 1 (e - 1) in
    let q' := if (r <? half) || ((r =? half) && Z.even q) then q else q + 1 in
    Z.sgn z * Z.shiftl q' e.

Inductive Number : Type :=
| NaN
| Num (z : Z).

(** Text that reaches [parseInt]: either it starts with an integer
    literal, or it does not (empty output, [undefined], an error page). *)
Inductive Text : Type :=
| Garbage
| Digits (z : Z).

Definition parseInt (t : Text) : Number :=
  match t with
  | Garbage => NaN
  | Digits z => Num (round53 z)
  end.

(** [a < b], [a > b], [a === b] and [a - b] on numbers. *)
Definition lt (a b : Number) : bool :=
  match a, b with
  | Num x, Num y => x <? y
  | _, _ => false
  end.

Definition gt (a b : Number) : bool := lt b a.

Definition strict_eq (a b : Number) : bool :=
  match a, b with
  | Num x, Num y => x =? y
  | _, _ => false
  end.

Definition sub (a b : Number) : Number :=
  match a, b with
  | Num x, Num y => Num (round53 (x - y))
  | _, _ => NaN
  end.

End JS.

(** ** Exceptions and outcomes *)

Inductive Exn : Type :=
| Error (message : string)
| RangeError
| SpawnError.

Inductive Outcome (A : Type) : Type :=
| Return (a : A)
| Throw (e : Exn).

Arguments Return {A} a.
Arguments Throw {A} e.

(** ** The outside world: [cast], the anvil node, the RPC endpoint *)

Module Node.

(** The command lines the script builds.  The [--rpc-url] argument is the
    same constant in all of them. *)
Inductive Command : Type :=
| RpcImpersonate (address : string)
| CallAllowance (token owner spender : string)
| CallBalanceOf (token owner : string)
| SendApprove (token from spender : string) (amount : Z)
| SendTransfer (token from recipient : string) (amount : Z).

(** What happens to the next process that is spawned. *)
Inductive Fate : Type :=
| Healthy        (* the command runs against the node *)
| NoEffect       (* the process exits zero, but the node is left as it was
                    and nothing is printed: the exit status of a command
                    does not confirm the state of the chain *)
| ExitFailure    (* the process exits non-zero and prints nothing *)
| LaunchFailure. (* the process cannot be started: [result.error] is set *)

(** An answer to the liveness request. *)
Inductive Probe : Type :=
| Unreachable                    (* [fetch] or [resp.json()] rejects *)
| Answered (result : JS.Text).   (* the [result] field of the reply *)

Record World : Type := mkWorld {
  token : string;                        (* the contract the ledger belongs to *)
  balances : gmap string Z;              (* balanceOf *)
  allowances : gmap (string * string) Z; (* allowance (owner, spender) *)
  unlocked : gset string;                (* accounts the node signs for *)
  fates : list Fate;                     (* fates of the coming spawns *)
  probes : list Probe;                   (* coming liveness answers *)
  trace : list Command                   (* commands spawned, oldest first *)
}.

Definition balanceOf (w : World) (a : string) : Z :=
  default 0 (balances w !! a).

Definition allowance (w : World) (owner spender : string) : Z :=
  default 0 (allowances w !! (owner, spender)).

Record SpawnResult : Type := mkResult {
  error : option Exn;
  status : Z;
  stdout : JS.Text
}.

Definition exited (code : Z) (out : JS.Text) : SpawnResult :=
  {| error := None; status := code; stdout := out |}.

Definition set_ledger (w : World) (b : gmap string Z)
    (al : gmap (string * string) Z) (u : gset string) : World :=
  {| token := token w; balances := b; allowances := al; unlocked := u;
     fates := fates w; probes := probes w; trace := trace w |}.

(** A command that reaches the node. *)
Definition perform (c : Command) (w : World) : SpawnResult * World :=
  match c with
  | RpcImpersonate a =>
      (exited 0 JS.Garbage,
       set_ledger w (balances w) (allowances w) ({[ a ]} ∪ unlocked w))
  | CallAllowance t owner spender =>
      if String.eqb t (token w)
      then (exited 0 (JS.Digits (allowance w owner spender)), w)
      else (exited 1 JS.Garbage, w)
  | CallBalanceOf t owner =>
      if String.eqb t (token w)
      then (exited 0 (JS.Digits (balanceOf w owner)), w)
      else (exited 1 JS.Garbage, w)
  | SendApprove t from spender amount =>
      if String.eqb t (token w) && bool_decide (from ∈ unlocked w)
         && (0 <=? amount)
      then (exited 0 JS.Garbage,
            set_ledger w (balances w)
              (<[(from, spender) := amount]> (allowances w)) (unlocked w))
      else (exited 1 JS.Garbage, w)
  | SendTransfer t from recipient amount =>
      if String.eqb t (token w) && bool_decide (from ∈ unlocked w)
         && (0 <=? amount) && (amount <=? balanceOf w from)
      then
        let b1 := <[from := balanceOf w from - amount]> (balances w) in
        let b2 := <[recipient := default 0 (b1 !! recipient) + amount]> b1 in
        (exited 0 JS.Garbage, set_ledger w b2 (allowances w) (unlocked w))
      else (exited 1 JS.Garbage, w)
  end.

(** The world once a command has been spawned: the command is recorded
    and the next fate is consumed. *)
Definition spawned (c : Command) (w : World) : World :=
  {| token := token w; balances := balances w;
     allowances := allowances w; unlocked := unlocked w;
     fates := tl (fates w); probes := probes w;
     trace := trace w ++ [c] |}.

Definition spawnSync (c : Command) (w : World) : SpawnResult * World :=
  let w' := spawned c w in
  match hd Healthy (fates w) with
  | Healthy => perform c w'
  | NoEffect => (exited 0 JS.Garbage, w')
  | ExitFailure => (exited 1 JS.Garbage, w')
  | LaunchFailure =>
      ({| error := Some SpawnError; status := 1; stdout := JS.Garbage |}, w')
  end.

(** The liveness request: the next probe is consumed; a node that has no
    answer left is unreachable. *)
Definition fetch_blockNumber (w : World) : Probe * World :=
  (hd Unreachable (probes w),
   {| token := token w; balances := balances w;
      allowances := allowances w; unlocked := unlocked w;
      fates := fates w; probes := tl (probes w); trace := trace w |}).

End Node.

Import Node.

(** ** The [Async] monad *)

Definition Async (A : Type) : Type := World -> Outcome A * World.

Definition ret {A} (a : A) : Async A := fun w => (Return a, w).

Definition throw {A} (e : Exn) : Async A := fun w => (Throw e, w).

Definition bind {A B} (c : Async A) (k : A -> Async B) : Async B :=
  fun w =>
    match c w with
    | (Return a, w') => k a w'
    | (Throw e, w') => (Throw e, w')
    end.

(** [try { c } catch (e) { h e }] *)
Definition try_catch {A} (c : Async A) (h : Exn -> Async A) : Async A :=
  fun w =>
    match c w with
    | (Return a, w') => (Return a, w')
    | (Throw e, w') => h e w'
    end.

Declare Scope async_scope.
Delimit Scope async_scope with async.
Notation "'let*' x ':=' c 'in' k" := (bind c (fun x => k))
  (at level 10, x name, c at level 100, k at level 200) : async_scope.
Notation "c ';;;' k" := (bind c (fun _ => k))
  (at level 100, k at level 200, right associativity) : async_scope.
Open Scope async_scope.

(** ** The funder *)

Module TestFunder.

Definition anvilRPC : string := "http://localhost:8545".
Definition fundingWallet : string := "0x70997970C51812dc3A010C7d01b50e0d17dc79C8".
Definition beneficiary : string := "0xf39Fd6e51aad88F6F4ce6aB8827279cffFb92266".
Definition permit2 : string := "0x000000000022D473030F116dDEE9F6B43aC78BA3".
(** [chainIdToRewardTokenMap[100]], that is [Tokens.WXDAI] of
    [shared/constants.ts]. *)
Definition rewardToken : string := "0xe91d153e0b41518a2ce8dd3d7944fa863463a97d".
Definition whale : string := "0xefC0e701A824943b469a694aC564Aa1efF7Ab7dd".

Record Expected : Type := { allowance : Z; balance : Z }.

Definition expected : Expected :=
  {| allowance := 999999999999999111119999999999999999;
     balance := 10000000000000000000000 |}.

(** [_exec]: run the command, rethrow [result.error] when it is set. *)
Definition _exec (payload : Command) : Async SpawnResult :=
  fun w =>
    let (result, w') := spawnSync payload w in
    match error result with
    | Some e => (Throw e, w')
    | None => (Return result, w')
    end.

(** [retry(fn, retries = 5)].  [remaining] is [retries - i]: the loop
    [while (i < retries) { ...; i++ }] runs while it is positive.  A call
    that throws leaves [isSuccess] as it was. *)
Fixpoint retry_loop (fn : Async bool) (remaining : nat) (isSuccess : bool)
    : Async bool :=
  match remaining with
  | O => throw (Error "Failed to execute function")
  | S remaining' =>
      let* isSuccess' :=
        try_catch fn (fun _error => ret isSuccess) in
      if isSuccess' then ret isSuccess'
      else retry_loop fn remaining' isSuccess'
  end.

Definition retry (fn : Async bool) (retries : nat) : Async bool :=
  retry_loop fn retries false.

Definition default_retries : nat := 5.

Definition _impersonateAccount (address : string) : Async bool :=
  let* impersonate := _exec (RpcImpersonate address) in
  ret (status impersonate =? 0).

Definition _fundingAllowanceCheck : Async JS.Text :=
  let* allowance := _exec (CallAllowance rewardToken fundingWallet permit2) in
  ret (stdout allowance).

Definition _fundingBalanceCheck : Async JS.Text :=
  let* balance := _exec (CallBalanceOf rewardToken fundingWallet) in
  ret (stdout balance).

Definition _approvePayload (address : string) : Async bool :=
  let* approve :=
    _exec (SendApprove rewardToken address permit2 (allowance expected)) in
  ret (status approve =? 0).

(** [BigInt(x)]: a [RangeError] for [NaN], the integer otherwise. *)
Definition BigInt (x : JS.Number) : Async Z :=
  match x with
  | JS.NaN => throw RangeError
  | JS.Num z => ret z
  end.

Definition _clearBalance : Async bool :=
  let* out := _fundingBalanceCheck in
  let balance_ := JS.parseInt out in
  let* difference :=
    BigInt (JS.sub balance_ (JS.parseInt (JS.Digits (balance expected)))) in
  let* clear :=
    _exec (SendTransfer rewardToken fundingWallet whale difference) in
  ret (status clear =? 0).

Definition _transferPayload : Async bool :=
  let* out := _fundingBalanceCheck in
  let balance_ := JS.parseInt out in
  let expected_ := JS.parseInt (JS.Digits (balance expected)) in
  if JS.strict_eq balance_ expected_ then ret true
  else
    (if JS.gt balance_ expected_
     then (let* _ := retry _clearBalance default_retries in ret tt)
     else ret tt) ;;;
    let* transfer :=
      _exec (SendTransfer rewardToken whale fundingWallet (balance expected)) in
    ret (status transfer =? 0).

Definition validate : Async unit :=
  let* allowance_ := _fundingAllowanceCheck in
  let* balance_ := _fundingBalanceCheck in
  if JS.lt (JS.parseInt allowance_) (JS.parseInt (JS.Digits (allowance expected)))
  then throw (Error "Allowance is not set correctly")
  else if JS.lt (JS.parseInt balance_) (JS.parseInt (JS.Digits (balance expected)))
  then throw (Error "Balance is not set correctly")
  else ret tt.

(** The entries of the [steps] object, in insertion order. *)
Definition steps : list (string * Async bool) :=
  [ ("impersonate", _impersonateAccount whale);
    ("approveFunding", _approvePayload fundingWallet);
    ("transfer", _transferPayload) ].

(** One turn of [for (const [step, fn] of Object.entries(steps))]; the
    value carried along is [isMoving]. *)
Definition run_step (fn : Async bool) (isMoving : bool) : Async bool :=
  let* ok := fn in
  if negb ok then
    let* isSuccess := retry fn default_retries in
    if negb isSuccess then ret false else ret isMoving
  else ret isMoving.

Fixpoint for_entries (entries : list (string * Async bool))
    (isMoving : bool) : Async bool :=
  match entries with
  | [] => ret isMoving
  | (_step, fn) :: rest =>
      let* isMoving' := run_step fn isMoving in
      for_entries rest isMoving'
  end.

(** [while (isMoving) { for ...; if (isMoving) break; }].  The loop has no
    evident bound, hence the fuel; [None] is an exhausted fuel. *)
Fixpoint while_isMoving (fuel : nat) (entries : list (string * Async bool))
    (isMoving : bool) (w : World) : option (Outcome unit * World) :=
  if isMoving then
    match fuel with
    | O => None
    | S fuel' =>
        match for_entries entries isMoving w with
        | (Return isMoving', w') =>
            if isMoving' then Some (Return tt, w')
            else while_isMoving fuel' entries isMoving' w'
        | (Throw e, w') => Some (Throw e, w')
        end
    end
  else Some (Return tt, w).

Definition execute_with (entries : list (string * Async bool))
    (fuel : nat) (w : World) : option (Outcome unit * World) :=
  match while_isMoving fuel entries true w with
  | Some (Return _, w') => Some (validate w')
  | other => other
  end.

Definition execute : nat -> World -> option (Outcome unit * World) :=
  execute_with steps.

Definition pingAnvil : Async bool :=
  fun w =>
    let (probe, w') := fetch_blockNumber w in
    match probe with
    | Answered result =>
        if JS.gt (JS.parseInt result) (JS.Num 0)
        then (Return true, w') else (Return false, w')
    | Unreachable => (Return false, w')
    end.

(** [while (!isAnvilReady && retries > 0) { ... }] of [main]; the loop
    decreases [retries] on every turn. *)
Fixpoint wait_anvil (retries : nat) (isAnvilReady : bool) : Async unit :=
  match retries with
  | O => ret tt
  | S retries' =>
      if negb isAnvilReady then
        let* isAnvilReady' := pingAnvil in
        if (retries' =? 0)%nat then throw (Error "Could not connect to Anvil")
        else wait_anvil retries' isAnvilReady'
      else ret tt
  end.

Definition main (fuel : nat) (w : World) : option (Outcome unit * World) :=
  match wait_anvil 5 false w with
  | (Return _, w') => execute fuel w'
  | (Throw e, w') => Some (Throw e, w')
  end.

(** [main().catch(... process.exit(1)).finally(() => process.exit(0))]:
    the exit code of the process. *)
Definition exit_code (r : Outcome unit) : Z :=
  match r with
  | Return _ => 0
  | Throw _ => 1
  end.

End TestFunder.

Import TestFunder.

(** ** Vocabulary of the statements *)

(** An attempt counts as a success only when the step returns [true]; a
    [false] and an exception are both failed attempts. *)
Definition succeeded (r : Outcome bool) : bool :=
  match r with
  | Return true => true
  | _ => false
  end.

(** The world after [k] consecutive calls of [fn]. *)
Fixpoint after_attempts (fn : Async bool) (k : nat) (w : World) : World :=
  match k with
  | O => w
  | S k' => after_attempts fn k' (snd (fn w))
  end.

(** A liveness answer on which [pingAnvil] reports readiness. *)
Definition alive (p : Probe) : bool :=
  match p with
  | Answered result => JS.gt (JS.parseInt result) (JS.Num 0)
  | Unreachable => false
  end.

(** The commands only the transfer step spawns. *)
Definition transfer_command (c : Command) : bool :=
  match c with
  | CallBalanceOf _ _ | SendTransfer _ _ _ _ => true
  | _ => false
  end.

Definition is_send (c : Command) : bool :=
  match c with
  | SendTransfer _ _ _ _ => true
  | _ => false
  end.

(** A step that spawns nothing of the transfer step. *)
Definition silent (fn : Async bool) : Prop :=
  forall w, filter transfer_command (trace (snd (fn w))) =
            filter transfer_command (trace w).

(** A node on which nothing goes wrong from now on, which serves the reward
    token and signs for both the funding wallet and the whale. *)
Record calm (w : World) : Prop := {
  calm_fates : fates w = [];
  calm_token : token w = rewardToken;
  calm_wallet : fundingWallet ∈ unlocked w;
  calm_whale : whale ∈ unlocked w
}.

(** A forked node with the given ledger. *)
Definition anvil (wallet_funds whale_funds wallet_allowance : Z)
    (signers : gset string) (fs : list Fate) (ps : list Probe) : World :=
  {| token := rewardToken;
     balances := {[ fundingWallet := wallet_funds; whale := whale_funds ]};
     allowances := {[ (fundingWallet, permit2) := wallet_allowance ]};
     unlocked := signers;
     fates := fs; probes := ps; trace := [] |}.

Definition target : Z := balance expected.
Definition floor : Z := allowance expected.

(** Sample runs. *)
Definition healthy_fork : World :=
  anvil 0 (10 * target) 0 {[ fundingWallet ]} [] [Answered (JS.Digits 100)].

(** The node refuses every [approve]. *)
Definition approve_refused : World :=
  anvil 0 (10 * target) 0 {[ fundingWallet ]}
    (Healthy :: repeat ExitFailure 6) [Answered (JS.Digits 100)].

(** Three refusals in a row, then a healthy node. *)
Definition three_refusals : World :=
  anvil 0 (10 * target) 0 {[ fundingWallet ]} (repeat ExitFailure 3) [].

(** The wallet holds one and a half times the target. *)
Definition over_funded : World :=
  anvil 15000000000000000000000 (10 * target) 0 {[ fundingWallet; whale ]} [] [].

(** The wallet holds half the target. *)
Definition under_funded : World :=
  anvil 5000000000000000000000 (10 * target) 0 {[ fundingWallet; whale ]} [] [].

(** A fresh run against a wallet that holds half the target. *)
Definition half_funded_fork : World :=
  anvil 5000000000000000000000 (10 * target) 0 {[ fundingWallet ]} []
    [Answered (JS.Digits 100)].

(** The node answers the fifth liveness request, not the first four. *)
Definition ready_at_fifth : World :=
  anvil 0 (10 * target) 0 {[ fundingWallet ]} []
    (repeat Unreachable 4 ++ [Answered (JS.Digits 100)]).

(** The very first spawn cannot be started; all later ones can. *)
Definition first_launch_fails : World :=
  anvil 0 (10 * target) 0 {[ fundingWallet ]} [LaunchFailure]
    [Answered (JS.Digits 100)].

(** The approval exits zero without reaching the ledger. *)
Definition approve_unconfirmed : World :=
  anvil 0 (10 * target) 0 {[ fundingWallet ]} [Healthy; NoEffect]
    [Answered (JS.Digits 100)].

(** The approval and the transfer exit zero without reaching the ledger,
    and every read fails without printing anything. *)
Definition unreadable_node : World :=
  anvil 0 (10 * target) 0 {[ fundingWallet ]}
    [Healthy; NoEffect; ExitFailure; NoEffect; ExitFailure; ExitFailure]
    [Answered (JS.Digits 100)].

(** The rounding of a number of at least 54 bits, with the exponent made
    explicit. *)
Definition round_at (e a : Z) : Z :=
  (if (a mod 2 ^ e <? 2 ^ (e - 1))
      || ((a mod 2 ^ e =? 2 ^ (e - 1)) && Z.even (a / 2 ^ e))
   then a / 2 ^ e else a / 2 ^ e + 1) * 2 ^ e.

(** * Properties *)

(** ** The retry executor *)

Lemma retry_unfold (fn : Async bool) (n : nat) (w : World) :
  retry fn (S n) w =
  if succeeded (fst (fn w)) then (Return true, snd (fn w))
  else retry fn n (snd (fn w)).
Proof.
  unfold retry; simpl. unfold bind, try_catch, ret.
  destruct (fn w) as [[[|]|e] w']; reflexivity.
Qed.

Lemma retry_zero (fn : Async bool) (w : World) :
  retry fn 0 w = (Throw (Error "Failed to execute function"), w).
Proof. reflexivity. Qed.

(** The first success ends the loop. *)
Lemma retry_first_success (fn : Async bool) (retries k : nat) (w : World) :
  (k < retries)%nat ->
  (forall j, (j < k)%nat -> succeeded (fst (fn (after_attempts fn j w))) = false) ->
  succeeded (fst (fn (after_attempts fn k w))) = true ->
  retry fn retries w = (Return true, after_attempts fn (S k) w).
Proof.
  revert k w. induction retries as [|n IH]; intros k w Hk Hfail Hok; [lia|].
  rewrite retry_unfold. destruct k as [|k].
  - simpl in Hok. rewrite Hok. reflexivity.
  - pose proof (Hfail 0%nat ltac:(lia)) as H0. simpl in H0. rewrite H0.
    apply (IH k (snd (fn w))); [lia| |exact Hok].
    intros j Hj. apply (Hfail (S j)). lia.
Qed.

(** Without a success every budgeted attempt is made, and then the loop
    raises. *)
Lemma retry_exhausted (fn : Async bool) (retries : nat) (w : World) :
  (forall j, (j < retries)%nat ->
     succeeded (fst (fn (after_attempts fn j w))) = false) ->
  retry fn retries w =
  (Throw (Error "Failed to execute function"), after_attempts fn retries w).
Proof.
  revert w. induction retries as [|n IH]; intros w Hfail; [reflexivity|].
  pose proof (Hfail 0%nat ltac:(lia)) as H0. simpl in H0.
  rewrite retry_unfold, H0.
  apply IH. intros j Hj. apply (Hfail (S j)). lia.
Qed.

(** What [retry] can answer at all. *)
Lemma retry_outcome (fn : Async bool) (retries : nat) (w : World) :
  fst (retry fn retries w) = Return true \/
  fst (retry fn retries w) = Throw (Error "Failed to execute function").
Proof.
  revert w. induction retries as [|n IH]; intros w; [right; reflexivity|].
  rewrite retry_unfold. destruct (succeeded (fst (fn w))); [left; reflexivity|].
  apply IH.
Qed.

(** ** The orchestrator *)

Lemma run_step_unfold (fn : Async bool) (isMoving : bool) (w : World) :
  run_step fn isMoving w =
  match fn w with
  | (Return true, w1) => (Return isMoving, w1)
  | (Return false, w1) =>
      match retry fn default_retries w1 with
      | (Return true, w2) => (Return isMoving, w2)
      | (Return false, w2) => (Return false, w2)
      | (Throw e, w2) => (Throw e, w2)
      end
  | (Throw e, w1) => (Throw e, w1)
  end.
Proof.
  unfold run_step, bind, ret.
  destruct (fn w) as [[[|]|e] w1]; simpl; try reflexivity.
  destruct (retry fn default_retries w1) as [[[|]|e] w2]; reflexivity.
Qed.

(** No step ever clears the flag. *)
Lemma run_step_keeps_flag (fn : Async bool) (isMoving b : bool) (w w' : World) :
  run_step fn isMoving w = (Return b, w') -> b = isMoving.
Proof.
  rewrite run_step_unfold.
  destruct (fn w) as [[[|]|e] w1]; [congruence| |discriminate].
  destruct (retry_outcome fn default_retries w1) as [H|H];
    destruct (retry fn default_retries w1) as [[[|]|e] w2];
    simpl in H; congruence.
Qed.

Lemma for_entries_keeps_flag (entries : list (string * Async bool))
    (isMoving b : bool) (w w' : World) :
  for_entries entries isMoving w = (Return b, w') -> b = isMoving.
Proof.
  revert isMoving w. induction entries as [|[step fn] rest IH]; intros m w H.
  - simpl in H. unfold ret in H. congruence.
  - simpl in H. unfold bind in H.
    destruct (run_step fn m w) as [[m'|e] w1] eqn:E; [|discriminate].
    apply run_step_keeps_flag in E. subst m'. eauto.
Qed.

Lemma for_entries_app (pre post : list (string * Async bool))
    (isMoving : bool) (w : World) :
  for_entries (pre ++ post) isMoving w =
  match for_entries pre isMoving w with
  | (Return isMoving', w') => for_entries post isMoving' w'
  | (Throw e, w') => (Throw e, w')
  end.
Proof.
  revert isMoving w. induction pre as [|[step fn] rest IH]; intros m w.
  - reflexivity.
  - simpl. unfold bind. destruct (run_step fn m w) as [[m'|e] w1]; [apply IH|reflexivity].
Qed.

(** The body of the outer loop runs exactly once. *)
Lemma while_isMoving_once (fuel : nat) (entries : list (string * Async bool))
    (w : World) :
  while_isMoving (S fuel) entries true w =
  Some match for_entries entries true w with
       | (Return _, w') => (Return tt, w')
       | (Throw e, w') => (Throw e, w')
       end.
Proof.
  simpl. destruct (for_entries entries true w) as [[b|e] w'] eqn:E; [|reflexivity].
  apply for_entries_keeps_flag in E. subst b. reflexivity.
Qed.

Lemma execute_with_once (fuel : nat) (entries : list (string * Async bool))
    (w : World) :
  execute_with entries (S fuel) w =
  Some match for_entries entries true w with
       | (Return _, w') => validate w'
       | (Throw e, w') => (Throw e, w')
       end.
Proof.
  unfold execute_with. rewrite while_isMoving_once.
  destruct (for_entries entries true w) as [[b|e] w']; reflexivity.
Qed.

(** Every spawn is recorded, whatever becomes of it. *)
Lemma exec_trace (c : Command) (w : World) :
  trace (snd (_exec c w)) = trace w ++ [c].
Proof.
  unfold _exec, spawnSync.
  destruct (hd Healthy (fates w)); simpl; try reflexivity.
  destruct c; simpl;
    repeat match goal with |- context [if ?b then _ else _] => destruct b end;
    reflexivity.
Qed.

Lemma silent_retry (fn : Async bool) (n : nat) :
  silent fn -> silent (retry fn n).
Proof.
  intros Hfn. induction n as [|n IH]; intros w; [reflexivity|].
  rewrite retry_unfold. destruct (succeeded (fst (fn w))); simpl.
  - apply Hfn.
  - rewrite IH. apply Hfn.
Qed.

Lemma silent_run_step (fn : Async bool) (isMoving : bool) :
  silent fn -> silent (run_step fn isMoving).
Proof.
  intros Hfn w. rewrite run_step_unfold.
  pose proof (Hfn w) as H1.
  destruct (fn w) as [[[|]|e] w1]; simpl in *; try exact H1.
  pose proof (silent_retry fn default_retries Hfn w1) as H2.
  destruct (retry fn default_retries w1) as [[[|]|e] w2]; simpl in *; congruence.
Qed.

Lemma silent_impersonate (a : string) : silent (_impersonateAccount a).
Proof.
  intros w. unfold _impersonateAccount, bind, ret.
  pose proof (exec_trace (RpcImpersonate a) w) as H.
  destruct (_exec (RpcImpersonate a) w) as [[r|e] w1]; simpl in *;
    rewrite H, filter_app; simpl; apply app_nil_r.
Qed.

Lemma silent_approve (a : string) : silent (_approvePayload a).
Proof.
  intros w. unfold _approvePayload, bind, ret.
  pose proof (exec_trace (SendApprove rewardToken a permit2 (allowance expected)) w) as H.
  destruct (_exec (SendApprove rewardToken a permit2 (allowance expected)) w)
    as [[r|e] w1]; simpl in *; rewrite H, filter_app; simpl; apply app_nil_r.
Qed.

Lemma retry_throw_inv (fn : Async bool) (retries : nat) (w : World) (e : Exn) :
  fst (retry fn retries w) = Throw e ->
  e = Error "Failed to execute function" /\
  snd (retry fn retries w) = after_attempts fn retries w /\
  forall j, (j < retries)%nat ->
    succeeded (fst (fn (after_attempts fn j w))) = false.
Proof.
  revert w. induction retries as [|n IH]; intros w H.
  - simpl in H. inversion H. repeat split. intros j Hj. lia.
  - rewrite retry_unfold in *.
    destruct (succeeded (fst (fn w))) eqn:E; [discriminate|].
    destruct (IH _ H) as (He & Hw & Hall). repeat split; trivial.
    intros [|j] Hj; [exact E|]. apply Hall. lia.
Qed.

(** C4 — Retry budget enforcement.  For every step [fn], budget
    [maxRetries] and world: [retry] returns [true] at the first attempt
    that succeeds, having made exactly that many calls; a step that fails
    (returns [false] or throws) at every one of the [maxRetries] attempts
    is called exactly [maxRetries] times, after which [retry] raises its
    own error; and [retry] raises nothing else: an exception of the step
    is never rethrown, it only counts as a failed attempt. *)
Theorem retry_budget_enforced (fn : Async bool) (maxRetries : nat) (w : World) :
  (forall k, (k < maxRetries)%nat ->
     (forall j, (j < k)%nat ->
        succeeded (fst (fn (after_attempts fn j w))) = false) ->
     succeeded (fst (fn (after_attempts fn k w))) = true ->
     retry fn maxRetries w = (Return true, after_attempts fn (S k) w))
  /\ ((forall j, (j < maxRetries)%nat ->
         succeeded (fst (fn (after_attempts fn j w))) = false) ->
      retry fn maxRetries w =
      (Throw (Error "Failed to execute function"),
       after_attempts fn maxRetries w))
  /\ (forall e, fst (retry fn maxRetries w) = Throw e ->
        e = Error "Failed to execute function" /\
        snd (retry fn maxRetries w) = after_attempts fn maxRetries w /\
        forall j, (j < maxRetries)%nat ->
          succeeded (fst (fn (after_attempts fn j w))) = false).
Proof.
  split; [|split].
  - intros k. apply retry_first_success.
  - apply retry_exhausted.
  - intros e. apply retry_throw_inv.
Qed.

(** Three refused approvals against a budget of three: three spawns, then
    the error. *)
Lemma retry_budget_enforced_witness :
  retry (_approvePayload fundingWallet) 3 three_refusals =
  (Throw (Error "Failed to execute function"),
   after_attempts (_approvePayload fundingWallet) 3 three_refusals)
  /\ length (trace (after_attempts (_approvePayload fundingWallet) 3
                      three_refusals)) = 3%nat.
Proof.
  split.
  - apply (proj1 (proj2 (retry_budget_enforced
                           (_approvePayload fundingWallet) 3 three_refusals))).
    intros j Hj. destruct j as [|[|[|j]]]; [vm_compute; reflexivity .. | lia].
  - vm_compute. reflexivity.
Defined.

(** C10 — [retry] never returns [false]: for every step, budget and world
    its outcome is [true] or its own error.  Hence the branch of [execute]
    that clears [isMoving] is dead: a step leaves the flag as it found it,
    and the loop over the steps started with [true] ends with [true]. *)
Theorem retry_never_returns_false (fn : Async bool) (retries : nat) (w : World) :
  (fst (retry fn retries w) = Return true \/
   fst (retry fn retries w) = Throw (Error "Failed to execute function"))
  /\ (forall isMoving b w',
        run_step fn isMoving w = (Return b, w') -> b = isMoving)
  /\ (forall entries b w',
        for_entries entries true w = (Return b, w') -> b = true).
Proof.
  split; [apply retry_outcome|split].
  - intros m b w'. apply run_step_keeps_flag.
  - intros entries b w'. apply for_entries_keeps_flag.
Qed.

Lemma retry_never_returns_false_witness :
  fst (retry (_approvePayload fundingWallet) 3 three_refusals) =
    Throw (Error "Failed to execute function")
  /\ fst (for_entries steps true healthy_fork) = Return true.
Proof.
  pose proof (retry_never_returns_false (_approvePayload fundingWallet) 3
                three_refusals) as [Hretry _].
  pose proof (retry_never_returns_false (_approvePayload fundingWallet) 3
                healthy_fork) as [_ [_ Hloop]].
  split.
  - destruct Hretry as [H|H]; [|exact H].
    exfalso. revert H. vm_compute. discriminate.
  - destruct (for_entries steps true healthy_fork) as [[b|e] w'] eqn:E.
    + simpl. f_equal. exact (Hloop steps b w' E).
    + exfalso. revert E. vm_compute. discriminate.
Defined.

(** C5 — Fail-fast ordering.  When the first call of a step returned
    [false] and its retry budget is then exhausted, [execute] ends there
    with the error of [retry], in the very world in which it was raised:
    no later step runs, validation does not run, nothing restarts.  For the
    script's own steps: when the approval exhausts its budget, [execute]
    and [main] end with that error and the transfer step has spawned
    nothing. *)
Theorem fail_fast_ordering :
  (forall pre step fn post fuel w0 w1 w2 w3 e,
     for_entries pre true w0 = (Return true, w1) ->
     fn w1 = (Return false, w2) ->
     retry fn default_retries w2 = (Throw e, w3) ->
     execute_with (pre ++ (step, fn) :: post) (S fuel) w0 = Some (Throw e, w3))
  /\ (forall fuel w w0 w1 w2 w3 e,
     wait_anvil 5 false w = (Return tt, w0) ->
     run_step (_impersonateAccount whale) true w0 = (Return true, w1) ->
     _approvePayload fundingWallet w1 = (Return false, w2) ->
     retry (_approvePayload fundingWallet) default_retries w2 = (Throw e, w3) ->
     execute (S fuel) w0 = Some (Throw e, w3)
     /\ main (S fuel) w = Some (Throw e, w3)
     /\ filter transfer_command (trace w3) = filter transfer_command (trace w0)).
Proof.
  assert (G : forall pre step fn post fuel w0 w1 w2 w3 e,
     for_entries pre true w0 = (Return true, w1) ->
     fn w1 = (Return false, w2) ->
     retry fn default_retries w2 = (Throw e, w3) ->
     execute_with (pre ++ (step, fn) :: post) (S fuel) w0 = Some (Throw e, w3)).
  { intros pre step fn post fuel w0 w1 w2 w3 e Hpre Hfn Hretry.
    rewrite execute_with_once, for_entries_app, Hpre. simpl.
    unfold bind. rewrite run_step_unfold, Hfn, Hretry. reflexivity. }
  split; [exact G|].
  intros fuel w w0 w1 w2 w3 e Hwait Himp Happ Hretry.
  assert (E : execute (S fuel) w0 = Some (Throw e, w3)).
  { apply (G [("impersonate", _impersonateAccount whale)] "approveFunding"
             (_approvePayload fundingWallet)
             [("transfer", _transferPayload)] fuel w0 w1 w2 w3 e);
      trivial.
    simpl. unfold bind. rewrite Himp. reflexivity. }
  split; [exact E|split].
  - unfold main. rewrite Hwait. exact E.
  - pose proof (silent_run_step _ true (silent_impersonate whale) w0) as H1.
    rewrite Himp in H1. simpl in H1.
    pose proof (silent_approve fundingWallet w1) as H2.
    rewrite Happ in H2. simpl in H2.
    pose proof (silent_retry _ default_retries (silent_approve fundingWallet) w2) as H3.
    rewrite Hretry in H3. simpl in H3. congruence.
Qed.

Lemma fail_fast_ordering_witness :
  exists w3,
    main 1 approve_refused = Some (Throw (Error "Failed to execute function"), w3)
    /\ trace w3 =
       RpcImpersonate whale ::
       repeat (SendApprove rewardToken fundingWallet permit2 floor) 6.
Proof.
  set (w0 := snd (wait_anvil 5 false approve_refused)).
  set (w1 := snd (run_step (_impersonateAccount whale) true w0)).
  set (w2 := snd (_approvePayload fundingWallet w1)).
  set (w3 := snd (retry (_approvePayload fundingWallet) default_retries w2)).
  destruct (proj2 fail_fast_ordering 0%nat approve_refused w0 w1 w2 w3
              (Error "Failed to execute function"))
    as (_ & Hmain & _); [vm_compute; reflexivity ..|].
  exists w3. split; [exact Hmain|vm_compute; reflexivity].
Defined.

(** ** The node, when nothing goes wrong *)

Lemma wallet_is_not_whale : fundingWallet <> whale.
Proof. discriminate. Qed.

Lemma round53_target : JS.round53 target = target.
Proof. vm_compute. reflexivity. Qed.

Lemma parse_target : JS.parseInt (JS.Digits (balance expected)) = JS.Num target.
Proof. vm_compute. reflexivity. Qed.

Lemma calm_spawned (c : Command) (w : World) : calm w -> calm (spawned c w).
Proof.
  intros [Hf Ht Hw Hh]. split; simpl; trivial. rewrite Hf. reflexivity.
Qed.

Lemma balance_read_calm (w : World) :
  calm w ->
  _fundingBalanceCheck w =
  (Return (JS.Digits (balanceOf w fundingWallet)),
   spawned (CallBalanceOf rewardToken fundingWallet) w).
Proof.
  intros [Hf Ht _ _].
  unfold _fundingBalanceCheck, bind, _exec, spawnSync. rewrite Hf. cbn [hd].
  unfold perform. change (token (spawned _ w)) with (token w).
  rewrite Ht, String.eqb_refl. reflexivity.
Qed.

Lemma transfer_calm (from recipient : string) (amount : Z) (w : World) :
  calm w -> from ∈ unlocked w -> from <> recipient ->
  0 <= amount <= balanceOf w from ->
  exists w',
    _exec (SendTransfer rewardToken from recipient amount) w =
      (Return (exited 0 JS.Garbage), w')
    /\ calm w'
    /\ balanceOf w' from = balanceOf w from - amount
    /\ balanceOf w' recipient = balanceOf w recipient + amount
    /\ trace w' = trace w ++ [SendTransfer rewardToken from recipient amount].
Proof.
  intros [Hf Ht Hw Hh] Hfrom Hne [H0 Hle].
  unfold _exec, spawnSync. rewrite Hf. cbn [hd].
  unfold perform.
  change (token (spawned _ w)) with (token w).
  change (unlocked (spawned _ w)) with (unlocked w).
  change (balanceOf (spawned _ w) from) with (balanceOf w from).
  rewrite Ht, String.eqb_refl, bool_decide_eq_true_2 by exact Hfrom.
  replace (0 <=? amount) with true by (symmetry; apply Z.leb_le; exact H0).
  replace (amount <=? balanceOf w from) with true
    by (symmetry; apply Z.leb_le; exact Hle).
  cbn [andb error exited]. eexists. split; [reflexivity|].
  split; [split; simpl; trivial; rewrite Hf; reflexivity|].
  unfold balanceOf; cbn [balances set_ledger spawned trace]. repeat split.
  - rewrite lookup_insert_ne by congruence. rewrite lookup_insert_eq. reflexivity.
  - rewrite lookup_insert_eq. rewrite lookup_insert_ne by congruence. reflexivity.
Qed.

Lemma target_pos : 0 < target.
Proof. reflexivity. Qed.

Lemma spawned_balanceOf (c : Command) (w : World) (a : string) :
  balanceOf (spawned c w) a = balanceOf w a.
Proof. reflexivity. Qed.

Lemma clear_balance_calm (w : World) :
  let d := JS.round53 (JS.round53 (balanceOf w fundingWallet) - target) in
  calm w ->
  0 <= d <= balanceOf w fundingWallet ->
  exists w',
    _clearBalance w = (Return true, w')
    /\ calm w'
    /\ balanceOf w' fundingWallet = balanceOf w fundingWallet - d
    /\ balanceOf w' whale = balanceOf w whale + d
    /\ trace w' = trace w ++ [CallBalanceOf rewardToken fundingWallet;
                              SendTransfer rewardToken fundingWallet whale d].
Proof.
  intros d Hcalm Hd.
  set (w1 := spawned (CallBalanceOf rewardToken fundingWallet) w).
  destruct (transfer_calm fundingWallet whale d w1) as (w' & He & Hc & Hf & Hw & Ht).
  { apply calm_spawned, Hcalm. }
  { apply Hcalm. }
  { exact wallet_is_not_whale. }
  { exact Hd. }
  exists w'. unfold _clearBalance, bind.
  rewrite (balance_read_calm w Hcalm), parse_target.
  change (JS.sub (JS.parseInt (JS.Digits (balanceOf w fundingWallet))) (JS.Num target))
    with (JS.Num d).
  cbn [BigInt ret]. fold w1. rewrite He. cbn [status exited Z.eqb].
  repeat split; try apply Hc; trivial.
  rewrite Ht. unfold w1. cbn [trace spawned]. rewrite <- app_assoc. reflexivity.
Qed.

(** Over-funded wallet: the surplus goes back, and the full target is sent
    on top of it. *)
Lemma transfer_payload_surplus (w : World) :
  let b := balanceOf w fundingWallet in
  let d := JS.round53 (JS.round53 b - target) in
  calm w ->
  target < JS.round53 b ->
  0 <= d <= b ->
  target <= balanceOf w whale + d ->
  exists w',
    _transferPayload w = (Return true, w')
    /\ calm w'
    /\ balanceOf w' fundingWallet = b - d + target
    /\ balanceOf w' whale = balanceOf w whale + d - target
    /\ trace w' = trace w ++ [CallBalanceOf rewardToken fundingWallet;
                              CallBalanceOf rewardToken fundingWallet;
                              SendTransfer rewardToken fundingWallet whale d;
                              SendTransfer rewardToken whale fundingWallet target].
Proof.
  intros b d Hcalm Hgt Hd Hwhale.
  set (w1 := spawned (CallBalanceOf rewardToken fundingWallet) w).
  assert (Hcalm1 : calm w1) by (apply calm_spawned, Hcalm).
  destruct (clear_balance_calm w1 Hcalm1 Hd) as (w2 & He2 & Hc2 & Hf2 & Hw2 & Ht2).
  change (balanceOf w1 fundingWallet) with b in Hf2, Hw2, Ht2.
  change (balanceOf w1 whale) with (balanceOf w whale) in Hw2.
  fold d in Hf2, Hw2, Ht2.
  destruct (transfer_calm whale fundingWallet target w2) as (w3 & He3 & Hc3 & Hw3 & Hf3 & Ht3).
  { exact Hc2. }
  { apply Hc2. }
  { intros H. apply wallet_is_not_whale. congruence. }
  { rewrite Hw2. pose proof target_pos. lia. }
  exists w3. unfold _transferPayload, bind.
  rewrite (balance_read_calm w Hcalm), parse_target. fold w1.
  change (JS.strict_eq (JS.parseInt (JS.Digits (balanceOf w fundingWallet))) (JS.Num target))
    with (JS.round53 b =? target).
  change (JS.gt (JS.parseInt (JS.Digits (balanceOf w fundingWallet))) (JS.Num target))
    with (target <? JS.round53 b).
  replace (JS.round53 b =? target) with false by (symmetry; apply Z.eqb_neq; lia).
  replace (target <? JS.round53 b) with true by (symmetry; apply Z.ltb_lt; lia).
  unfold default_retries. rewrite retry_unfold, He2. cbn [fst snd succeeded ret].
  change (balance expected) with target. rewrite He3. cbn [status exited Z.eqb].
  repeat split; try apply Hc3.
  - rewrite Hf3, Hf2. reflexivity.
  - rewrite Hw3, Hw2. reflexivity.
  - rewrite Ht3, Ht2. unfold w1. cbn [trace spawned].
    rewrite <- !app_assoc. reflexivity.
Qed.

(** Under-funded wallet: the full target is sent, whatever is missing. *)
Lemma transfer_payload_deficit (w : World) :
  let b := balanceOf w fundingWallet in
  calm w ->
  JS.round53 b < target ->
  target <= balanceOf w whale ->
  exists w',
    _transferPayload w = (Return true, w')
    /\ calm w'
    /\ balanceOf w' fundingWallet = b + target
    /\ balanceOf w' whale = balanceOf w whale - target
    /\ trace w' = trace w ++ [CallBalanceOf rewardToken fundingWallet;
                              SendTransfer rewardToken whale fundingWallet target].
Proof.
  intros b Hcalm Hlt Hwhale.
  set (w1 := spawned (CallBalanceOf rewardToken fundingWallet) w).
  assert (Hcalm1 : calm w1) by (apply calm_spawned, Hcalm).
  destruct (transfer_calm whale fundingWallet target w1) as (w3 & He3 & Hc3 & Hw3 & Hf3 & Ht3).
  { exact Hcalm1. }
  { apply Hcalm1. }
  { intros H. apply wallet_is_not_whale. congruence. }
  { change (balanceOf w1 whale) with (balanceOf w whale).
    pose proof target_pos. lia. }
  exists w3. unfold _transferPayload, bind.
  rewrite (balance_read_calm w Hcalm), parse_target. fold w1.
  change (JS.strict_eq (JS.parseInt (JS.Digits (balanceOf w fundingWallet))) (JS.Num target))
    with (JS.round53 b =? target).
  change (JS.gt (JS.parseInt (JS.Digits (balanceOf w fundingWallet))) (JS.Num target))
    with (target <? JS.round53 b).
  replace (JS.round53 b =? target) with false by (symmetry; apply Z.eqb_neq; lia).
  replace (target <? JS.round53 b) with false by (symmetry; apply Z.ltb_ge; lia).
  cbn [ret]. change (balance expected) with target. rewrite He3.
  cbn [status exited Z.eqb].
  repeat split; try apply Hc3.
  - rewrite Hf3. reflexivity.
  - rewrite Hw3. reflexivity.
  - rewrite Ht3. unfold w1. cbn [trace spawned].
    rewrite <- !app_assoc. reflexivity.
Qed.

(** The wallet reads as funded: one read, no send. *)
Lemma transfer_payload_fixed_point (w : World) :
  calm w ->
  JS.round53 (balanceOf w fundingWallet) = target ->
  _transferPayload w =
  (Return true, spawned (CallBalanceOf rewardToken fundingWallet) w).
Proof.
  intros Hcalm Heq. unfold _transferPayload, bind.
  rewrite (balance_read_calm w Hcalm), parse_target.
  change (JS.strict_eq (JS.parseInt (JS.Digits (balanceOf w fundingWallet))) (JS.Num target))
    with (JS.round53 (balanceOf w fundingWallet) =? target).
  rewrite Heq, Z.eqb_refl. reflexivity.
Qed.

(** ** Repeated calls of the transfer step *)

Lemma after_attempts_add (fn : Async bool) (m n : nat) (w : World) :
  after_attempts fn (m + n) w = after_attempts fn n (after_attempts fn m w).
Proof. revert w. induction m as [|m IH]; intros w; [reflexivity|apply IH]. Qed.

Lemma round53_twice_target : JS.round53 (2 * target) = 2 * target.
Proof. vm_compute. reflexivity. Qed.

(** Twice the target is where the transfer step stays for good: every
    further call takes the surplus back and sends the target again. *)
Lemma stuck_at_twice_target (n : nat) (w : World) :
  calm w ->
  balanceOf w fundingWallet = 2 * target ->
  0 <= balanceOf w whale ->
  balanceOf (after_attempts _transferPayload n w) fundingWallet = 2 * target.
Proof.
  revert w. induction n as [|n IH]; intros w Hcalm Hb Hw; [exact Hb|].
  simpl.
  assert (Hd : JS.round53 (JS.round53 (balanceOf w fundingWallet) - target) = target).
  { rewrite Hb, round53_twice_target.
    replace (2 * target - target) with target by lia. apply round53_target. }
  pose proof target_pos as Hpos.
  destruct (transfer_payload_surplus w) as (w' & He & Hc & Hf & Hwh & _).
  { exact Hcalm. }
  { rewrite Hb, round53_twice_target. lia. }
  { rewrite Hd, Hb. lia. }
  { rewrite Hd. lia. }
  rewrite He. simpl. rewrite Hd in Hf, Hwh. apply IH; [exact Hc|lia|lia].
Qed.

Lemma calm_after_two_topups : calm (after_attempts _transferPayload 2 under_funded).
Proof.
  split; [vm_compute; reflexivity | vm_compute; reflexivity | |];
    apply (bool_decide_unpack _); vm_compute; exact I.
Qed.

(** C3 (the code does not do this) — Idempotent reconciliation.  The claim
    has repeated calls of the transfer step reach the target with at most
    one corrective transfer.  From a wallet that holds half the target the
    first call sends the whole target (the wallet then holds one and a half
    times the target), the second takes the surplus back and sends the
    whole target again, and from then on every call leaves the wallet at
    twice the target: three calls make five transfers and the target is
    never reached. *)
Theorem reconcile_never_settles (n : nat) :
  balanceOf under_funded fundingWallet = 5000000000000000000000
  /\ balanceOf (after_attempts _transferPayload 1 under_funded) fundingWallet
     = 15000000000000000000000
  /\ balanceOf (after_attempts _transferPayload (2 + n) under_funded) fundingWallet
     = 20000000000000000000000
  /\ length (filter is_send (trace (after_attempts _transferPayload 3 under_funded)))
     = 5%nat.
Proof.
  split; [vm_compute; reflexivity|].
  split; [vm_compute; reflexivity|].
  split; [|vm_compute; reflexivity].
  rewrite after_attempts_add.
  change 20000000000000000000000 with (2 * target).
  apply stuck_at_twice_target.
  - exact calm_after_two_topups.
  - vm_compute. reflexivity.
  - vm_compute. discriminate.
Qed.

(** ** The transfer step on concrete ledgers *)

(** C1 (the code does not do this) — Claw-back correctness.  The wallet
    holds the target plus a surplus of 5000000000000000000000.  One call
    of the transfer step sends exactly that surplus back to the whale, and
    then, instead of returning, sends the whole target from the whale to
    the wallet: two transfers, and the wallet ends at twice the target. *)
Theorem clawback_overshoots :
  balanceOf over_funded fundingWallet = target + 5000000000000000000000
  /\ fst (_transferPayload over_funded) = Return true
  /\ filter is_send (trace (snd (_transferPayload over_funded))) =
     [ SendTransfer rewardToken fundingWallet whale 5000000000000000000000;
       SendTransfer rewardToken whale fundingWallet target ]
  /\ balanceOf (snd (_transferPayload over_funded)) fundingWallet = 2 * target.
Proof. vm_compute. repeat split; reflexivity. Qed.

(** C2 (the code does not do this) — Top-up correctness.  The wallet is
    5000000000000000000000 short of the target.  One call of the transfer
    step sends the whole target, not the missing amount, and the wallet
    ends above the target by what it held before. *)
Theorem topup_sends_full_target :
  balanceOf under_funded fundingWallet = target - 5000000000000000000000
  /\ fst (_transferPayload under_funded) = Return true
  /\ filter is_send (trace (snd (_transferPayload under_funded))) =
     [ SendTransfer rewardToken whale fundingWallet target ]
  /\ balanceOf (snd (_transferPayload under_funded)) fundingWallet =
     target + 5000000000000000000000.
Proof. vm_compute. repeat split; reflexivity. Qed.

(** ** Rounding to a double *)

Lemma round53_small (z : Z) : Z.abs z < 2 ^ 53 -> JS.round53 z = z.
Proof.
  intros H. unfold JS.round53.
  destruct (Z.ltb_spec (Z.abs z) (2 ^ 53)); [reflexivity|lia].
Qed.

Lemma round53_large (a : Z) :
  2 ^ 53 <= a -> JS.round53 a = round_at (Z.log2 a - 52) a.
Proof.
  intros H. assert (Ha : 0 < a) by lia.
  assert (Hl : 53 <= Z.log2 a) by (apply Z.log2_le_pow2; lia).
  unfold JS.round53, round_at.
  rewrite Z.abs_eq by lia.
  destruct (Z.ltb_spec a (2 ^ 53)); [lia|].
  rewrite Z.shiftr_div_pow2, Z.land_ones, !Z.shiftl_mul_pow2 by lia.
  rewrite Z.sgn_pos by lia. rewrite !Z.mul_1_l. reflexivity.
Qed.

Lemma round_at_bounds (e a : Z) :
  0 < e -> 0 <= a ->
  (a / 2 ^ e) * 2 ^ e <= round_at e a <= (a / 2 ^ e + 1) * 2 ^ e.
Proof.
  intros He Ha. unfold round_at.
  assert (0 < 2 ^ e) by (apply Z.pow_pos_nonneg; lia).
  destruct (_ || _); nia.
Qed.

Lemma round_at_mono (e a b : Z) :
  0 < e -> 0 <= a <= b -> round_at e a <= round_at e b.
Proof.
  intros He [Ha Hab].
  assert (Hp : 0 < 2 ^ e) by (apply Z.pow_pos_nonneg; lia).
  assert (Hq : a / 2 ^ e <= b / 2 ^ e) by (apply Z.div_le_mono; lia).
  destruct (Z.eq_dec (a / 2 ^ e) (b / 2 ^ e)) as [E|E].
  - unfold round_at. rewrite <- E.
    pose proof (Z.div_mod a (2 ^ e) ltac:(lia)) as Da.
    pose proof (Z.div_mod b (2 ^ e) ltac:(lia)) as Db.
    assert (Hr : a mod 2 ^ e <= b mod 2 ^ e) by nia.
    set (ra := a mod 2 ^ e) in *. set (rb := b mod 2 ^ e) in *.
    set (h := 2 ^ (e - 1)). set (q := a / 2 ^ e).
    destruct (Z.ltb_spec rb h), (Z.eqb_spec rb h), (Z.ltb_spec ra h),
      (Z.eqb_spec ra h), (Z.even q); simpl; nia.
  - pose proof (round_at_bounds e a He Ha).
    pose proof (round_at_bounds e b He ltac:(lia)). nia.
Qed.

Lemma log2_window (a : Z) :
  2 ^ 53 <= a ->
  let e := Z.log2 a - 52 in
  0 < e /\ 2 ^ 52 * 2 ^ e <= a < 2 ^ 53 * 2 ^ e.
Proof.
  intros H e. assert (Ha : 0 < a) by lia.
  assert (Hl : 53 <= Z.log2 a) by (apply Z.log2_le_pow2; lia).
  pose proof (Z.log2_spec a Ha) as [L U].
  split; [unfold e; lia|].
  rewrite <- !Z.pow_add_r by (unfold e; lia).
  replace (52 + e) with (Z.log2 a) by (unfold e; lia).
  replace (53 + e) with (Z.succ (Z.log2 a)) by (unfold e; lia). lia.
Qed.

Lemma round53_window (a : Z) :
  2 ^ 53 <= a ->
  2 ^ 52 * 2 ^ (Z.log2 a - 52) <= JS.round53 a <= 2 ^ 53 * 2 ^ (Z.log2 a - 52).
Proof.
  intros H. destruct (log2_window a H) as [He [L U]].
  set (e := Z.log2 a - 52) in *.
  rewrite round53_large by exact H. fold e.
  pose proof (round_at_bounds e a He ltac:(lia)) as [B1 B2].
  assert (Hp : 0 < 2 ^ e) by (apply Z.pow_pos_nonneg; lia).
  assert (Hq1 : 2 ^ 52 <= a / 2 ^ e) by (apply Z.div_le_lower_bound; lia).
  assert (Hq2 : a / 2 ^ e < 2 ^ 53) by (apply Z.div_lt_upper_bound; lia).
  split; nia.
Qed.

(** Rounding to a double keeps the order of non-negative integers. *)
Lemma round53_mono (a b : Z) :
  0 <= a <= b -> JS.round53 a <= JS.round53 b.
Proof.
  intros [Ha Hab].
  destruct (Z.lt_ge_cases b (2 ^ 53)) as [Hb|Hb].
  - rewrite !round53_small by (rewrite Z.abs_eq; lia). exact Hab.
  - destruct (Z.lt_ge_cases a (2 ^ 53)) as [Ha'|Ha'].
    + rewrite (round53_small a) by (rewrite Z.abs_eq; lia).
      pose proof (round53_window b Hb) as [L _].
      destruct (log2_window b Hb) as [He _].
      assert (2 ^ 1 <= 2 ^ (Z.log2 b - 52)) by (apply Z.pow_le_mono_r; lia).
      change (2 ^ 1) with 2 in *. nia.
    + assert (Hl : Z.log2 a <= Z.log2 b) by (apply Z.log2_le_mono; lia).
      destruct (Z.eq_dec (Z.log2 a) (Z.log2 b)) as [E|E].
      * rewrite !round53_large by assumption. rewrite E.
        destruct (log2_window b Hb) as [He _].
        apply round_at_mono; lia.
      * pose proof (round53_window a Ha') as [_ U].
        pose proof (round53_window b Hb) as [L _].
        destruct (log2_window a Ha') as [Hea _].
        assert (2 ^ (Z.log2 a - 52 + 1) <= 2 ^ (Z.log2 b - 52))
          by (apply Z.pow_le_mono_r; lia).
        rewrite Z.pow_add_r in * by lia. change (2 ^ 1) with 2 in *. nia.
Qed.

Lemma round53_nonpos (z : Z) : z <= 0 -> JS.round53 z <= 0.
Proof.
  intros H. unfold JS.round53.
  destruct (Z.abs z <? 2 ^ 53); [exact H|]. cbv zeta.
  set (e := Z.log2 (Z.abs z) - 52).
  assert (Hq : 0 <= Z.shiftr (Z.abs z) e) by (apply Z.shiftr_nonneg; lia).
  match goal with |- _ * Z.shiftl ?q _ <= 0 => assert (Hs : 0 <= Z.shiftl q e) end.
  { apply Z.shiftl_nonneg. destruct (_ || _); lia. }
  pose proof (proj2 (Z.sgn_nonpos z) H). nia.
Qed.

(** A balance whose double is not below the target is short of the target by
    2^20 at most: the doubles next to the target are 2^21 apart. *)
Lemma double_not_below_target (z : Z) :
  target <= JS.round53 z -> target - 2 ^ 20 <= z.
Proof.
  intros H. destruct (Z.le_gt_cases (target - 2 ^ 20) z) as [|Hz]; [assumption|].
  exfalso. pose proof target_pos as Ht.
  destruct (Z.le_gt_cases z 0) as [Hn|Hp].
  - pose proof (round53_nonpos z Hn). lia.
  - assert (Hm : JS.round53 z <= JS.round53 (target - 2 ^ 20 - 1))
      by (apply round53_mono; lia).
    assert (Hc : JS.round53 (target - 2 ^ 20 - 1) = target - 2 ^ 21)
      by (vm_compute; reflexivity).
    assert (0 < 2 ^ 21) by reflexivity. lia.
Qed.

(** ** Validation *)

Lemma balance_read_inv (w w' : World) (z : Z) :
  _fundingBalanceCheck w = (Return (JS.Digits z), w') ->
  z = balanceOf w' fundingWallet.
Proof.
  unfold _fundingBalanceCheck, bind, _exec, spawnSync, ret.
  destruct (hd Healthy (fates w)); cbn [perform error exited]; try discriminate.
  destruct (String.eqb rewardToken (token (spawned _ w)));
    cbn [error exited stdout]; intros H; inversion H; reflexivity.
Qed.

Lemma allowance_read_inv (w w' : World) (z : Z) :
  _fundingAllowanceCheck w = (Return (JS.Digits z), w') ->
  z = Node.allowance w' fundingWallet permit2.
Proof.
  unfold _fundingAllowanceCheck, bind, _exec, spawnSync, ret.
  destruct (hd Healthy (fates w)); cbn [perform error exited]; try discriminate.
  destruct (String.eqb rewardToken (token (spawned _ w)));
    cbn [error exited stdout]; intros H; inversion H; reflexivity.
Qed.

(** A read leaves the allowances as they are, whatever it prints. *)
Lemma balance_read_keeps_allowances (w w' : World) (r : Outcome JS.Text) :
  _fundingBalanceCheck w = (r, w') -> allowances w' = allowances w.
Proof.
  unfold _fundingBalanceCheck, bind, _exec, spawnSync, ret.
  destruct (hd Healthy (fates w)); cbn [perform error exited];
    try (intros H; inversion H; reflexivity).
  destruct (String.eqb rewardToken (token (spawned _ w)));
    cbn [error exited stdout]; intros H; inversion H; reflexivity.
Qed.

(** The only exception [_exec] raises is the launch error of the process. *)
Lemma exec_throw_inv (c : Command) (w w' : World) (e : Exn) :
  _exec c w = (Throw e, w') -> e = SpawnError.
Proof.
  unfold _exec, spawnSync.
  destruct (hd Healthy (fates w)); cbn [error exited];
    try discriminate; try (intros H; inversion H; reflexivity).
  destruct c; cbn [perform];
    repeat match goal with |- context [if ?b then _ else _] => destruct b end;
    discriminate.
Qed.

Lemma allowance_read_throw_inv (w w' : World) (e : Exn) :
  _fundingAllowanceCheck w = (Throw e, w') -> e = SpawnError.
Proof.
  unfold _fundingAllowanceCheck, bind, ret.
  destruct (_exec _ w) as [[r|e'] w1] eqn:E; [discriminate|].
  intros H. inversion H; subst. eapply exec_throw_inv. exact E.
Qed.

Lemma balance_read_throw_inv (w w' : World) (e : Exn) :
  _fundingBalanceCheck w = (Throw e, w') -> e = SpawnError.
Proof.
  unfold _fundingBalanceCheck, bind, ret.
  destruct (_exec _ w) as [[r|e'] w1] eqn:E; [discriminate|].
  intros H. inversion H; subst. eapply exec_throw_inv. exact E.
Qed.

Lemma validate_unfold (w : World) :
  validate w =
  match _fundingAllowanceCheck w with
  | (Return a, w1) =>
      match _fundingBalanceCheck w1 with
      | (Return b, w2) =>
          if JS.lt (JS.parseInt a) (JS.parseInt (JS.Digits floor))
          then (Throw (Error "Allowance is not set correctly"), w2)
          else if JS.lt (JS.parseInt b) (JS.parseInt (JS.Digits target))
          then (Throw (Error "Balance is not set correctly"), w2)
          else (Return tt, w2)
      | (Throw e, w2) => (Throw e, w2)
      end
  | (Throw e, w1) => (Throw e, w1)
  end.
Proof.
  unfold validate, bind.
  destruct (_fundingAllowanceCheck w) as [[a|e] w1]; [|reflexivity].
  destruct (_fundingBalanceCheck w1) as [[b|e] w2]; [|reflexivity].
  unfold floor, target.
  destruct (JS.lt (JS.parseInt a) _); [reflexivity|].
  destruct (JS.lt (JS.parseInt b) _); reflexivity.
Qed.

(** A run is the readiness wait, one pass over the steps and the
    validation of the state the steps left. *)
Lemma main_unfold (fuel : nat) (w : World) :
  main (S fuel) w =
  Some match wait_anvil 5 false w with
       | (Return _, w0) =>
           match for_entries steps true w0 with
           | (Return _, w1) => validate w1
           | (Throw e, w1) => (Throw e, w1)
           end
       | (Throw e, w0) => (Throw e, w0)
       end.
Proof.
  unfold main, execute.
  destruct (wait_anvil 5 false w) as [[u|e] w0]; [|reflexivity].
  apply execute_with_once.
Qed.

(** Validation is no proof that the ledger is funded: when the reads fail
    and print nothing, both readings parse to [NaN], neither comparison
    holds, and the run exits 0 with an empty wallet and no allowance. *)
Example unreadable_ledger_converges :
  exists w',
    main 1 unreadable_node = Some (Return tt, w')
    /\ balanceOf w' fundingWallet = 0
    /\ Node.allowance w' fundingWallet permit2 = 0.
Proof. eexists. split; [vm_compute; reflexivity|]. split; vm_compute; reflexivity. Qed.

(** The slack of the comparison on doubles is real: a wallet that holds the
    target less 2^20 passes validation. *)
Example validate_accepts_rounded_balance :
  fst (validate (anvil (target - 2 ^ 20) 0 floor ∅ [] [])) = Return tt.
Proof. vm_compute. reflexivity. Qed.

(** C6, as stated, fails: a run against a wallet that holds half the
    target ends with exit code 0 and a balance above the target. *)
Lemma converged_above_target :
  exists w',
    main 1 half_funded_fork = Some (Return tt, w')
    /\ exit_code (Return tt) = 0
    /\ balanceOf w' fundingWallet = 15000000000000000000000
    /\ target < balanceOf w' fundingWallet.
Proof.
  eexists. split; [vm_compute; reflexivity|].
  split; [reflexivity|]. split; vm_compute; reflexivity.
Qed.

(** C6 (amended) — What a converged run guarantees.  [main] returns
    normally (exit code 0) exactly when the readiness wait and the steps
    complete and the final validation, reading from the state the steps
    left, gets both readings and finds neither to parse below its bound.
    An allowance reading that is a number is the allowance in the ledger at
    the end, and its double is not below the double of the floor.  A balance
    reading that is a number is the wallet's balance at the end; its double
    is at least the target, hence the balance is at least the target less
    2^20.  A reading that is not a number is below nothing, and nothing
    bounds the balance from above. *)
Theorem converged_not_below_target (fuel : nat) (w w' : World) :
  main (S fuel) w = Some (Return tt, w') <->
  exists w0 w1 w2 a b,
    wait_anvil 5 false w = (Return tt, w0)
    /\ for_entries steps true w0 = (Return true, w1)
    /\ _fundingAllowanceCheck w1 = (Return a, w2)
    /\ _fundingBalanceCheck w2 = (Return b, w')
    /\ JS.lt (JS.parseInt a) (JS.parseInt (JS.Digits floor)) = false
    /\ JS.lt (JS.parseInt b) (JS.parseInt (JS.Digits target)) = false
    /\ (forall z, a = JS.Digits z ->
          z = Node.allowance w' fundingWallet permit2
          /\ JS.round53 floor <= JS.round53 z)
    /\ (forall z, b = JS.Digits z ->
          z = balanceOf w' fundingWallet
          /\ target <= JS.round53 z
          /\ target - 2 ^ 20 <= balanceOf w' fundingWallet).
Proof.
  rewrite main_unfold. split.
  - destruct (wait_anvil 5 false w) as [[[]|e] w0]; [|discriminate].
    destruct (for_entries steps true w0) as [[m|e] w1] eqn:El; [|discriminate].
    pose proof (for_entries_keeps_flag _ _ _ _ _ El); subst m.
    rewrite validate_unfold.
    destruct (_fundingAllowanceCheck w1) as [[a|e] w2] eqn:Ea; [|discriminate].
    destruct (_fundingBalanceCheck w2) as [[b|e] w3] eqn:Eb; [|discriminate].
    destruct (JS.lt (JS.parseInt a) _) eqn:La; [discriminate|].
    destruct (JS.lt (JS.parseInt b) _) eqn:Lb; [discriminate|].
    intros H. inversion H; subst w3.
    exists w0, w1, w2, a, b. repeat split; trivial.
    + subst a. unfold Node.allowance.
      rewrite (balance_read_keeps_allowances _ _ _ Eb).
      eapply allowance_read_inv. exact Ea.
    + subst a. simpl in La. apply Z.ltb_ge in La. exact La.
    + subst b. eapply balance_read_inv. exact Eb.
    + subst b. simpl in Lb. rewrite round53_target in Lb.
      apply Z.ltb_ge in Lb. exact Lb.
    + subst b. rewrite <- (balance_read_inv _ _ _ Eb).
      apply double_not_below_target.
      simpl in Lb. rewrite round53_target in Lb.
      apply Z.ltb_ge in Lb. exact Lb.
  - intros (w0 & w1 & w2 & a & b & Hw & Hl & Ha & Hb & La & Lb & _).
    rewrite Hw, Hl, validate_unfold, Ha, Hb, La, Lb. reflexivity.
Qed.

Lemma converged_not_below_target_witness :
  exists w',
    main 1 healthy_fork = Some (Return tt, w')
    /\ balanceOf w' fundingWallet = target
    /\ Node.allowance w' fundingWallet permit2 = floor
    /\ exists w0 w1 w2 a b,
         wait_anvil 5 false healthy_fork = (Return tt, w0)
         /\ for_entries steps true w0 = (Return true, w1)
         /\ _fundingAllowanceCheck w1 = (Return a, w2)
         /\ _fundingBalanceCheck w2 = (Return b, w')
         /\ JS.lt (JS.parseInt a) (JS.parseInt (JS.Digits floor)) = false
         /\ JS.lt (JS.parseInt b) (JS.parseInt (JS.Digits target)) = false
         /\ (forall z, a = JS.Digits z ->
               z = Node.allowance w' fundingWallet permit2
               /\ JS.round53 floor <= JS.round53 z)
         /\ (forall z, b = JS.Digits z ->
               z = balanceOf w' fundingWallet
               /\ target <= JS.round53 z
               /\ target - 2 ^ 20 <= balanceOf w' fundingWallet).
Proof.
  set (w' := snd (validate (snd (for_entries steps true
                                   (snd (wait_anvil 5 false healthy_fork)))))).
  assert (H : main 1 healthy_fork = Some (Return tt, w'))
    by (vm_compute; reflexivity).
  exists w'. split; [exact H|]. split; [vm_compute; reflexivity|].
  split; [vm_compute; reflexivity|].
  exact (proj1 (converged_not_below_target 0 healthy_fork w') H).
Defined.

(** C7, as stated, fails: two validations that read different allowances
    raise one and the same error value, so the error does not carry what
    was read. *)
Lemma validation_error_hides_readings :
  fst (_fundingAllowanceCheck (anvil 0 0 0 ∅ [] [])) = Return (JS.Digits 0)
  /\ fst (_fundingAllowanceCheck (anvil 0 0 1 ∅ [] [])) = Return (JS.Digits 1)
  /\ fst (validate (anvil 0 0 0 ∅ [] [])) =
     Throw (Error "Allowance is not set correctly")
  /\ fst (validate (anvil 0 0 1 ∅ [] [])) =
     Throw (Error "Allowance is not set correctly").
Proof. vm_compute. repeat split; reflexivity. Qed.

(** C7 (amended) — Validation failure diagnostics.  The readiness wait and
    the steps have completed; validation reads the allowance and then the
    balance from the state the steps left, and compares nothing before both
    readings are there.  When both reads return and the allowance parses
    below the floor, validation and the run end with the error "Allowance
    is not set correctly", whatever the balance is; when the allowance does
    not parse below the floor and the balance parses below the target, with
    the error "Balance is not set correctly".  The two errors differ, each
    is a fixed message that holds none of the readings, and the process
    exits with code 1.  When one of the two reads cannot be launched, the
    run ends with that launch error instead, whatever the other reading
    is. *)
Theorem validation_failure_is_named (fuel : nat) (w w0 w1 : World) :
  wait_anvil 5 false w = (Return tt, w0) ->
  for_entries steps true w0 = (Return true, w1) ->
  (forall a b w2 w3,
      _fundingAllowanceCheck w1 = (Return a, w2) ->
      _fundingBalanceCheck w2 = (Return b, w3) ->
      (JS.lt (JS.parseInt a) (JS.parseInt (JS.Digits floor)) = true ->
       validate w1 = (Throw (Error "Allowance is not set correctly"), w3)
       /\ main (S fuel) w =
          Some (Throw (Error "Allowance is not set correctly"), w3))
      /\ (JS.lt (JS.parseInt a) (JS.parseInt (JS.Digits floor)) = false ->
          JS.lt (JS.parseInt b) (JS.parseInt (JS.Digits target)) = true ->
          validate w1 = (Throw (Error "Balance is not set correctly"), w3)
          /\ main (S fuel) w =
             Some (Throw (Error "Balance is not set correctly"), w3)))
  /\ (forall e w2,
        _fundingAllowanceCheck w1 = (Throw e, w2) ->
        e = SpawnError /\ main (S fuel) w = Some (Throw SpawnError, w2))
  /\ (forall a e w2 w3,
        _fundingAllowanceCheck w1 = (Return a, w2) ->
        _fundingBalanceCheck w2 = (Throw e, w3) ->
        e = SpawnError /\ main (S fuel) w = Some (Throw SpawnError, w3))
  /\ Error "Allowance is not set correctly" <> Error "Balance is not set correctly"
  /\ (forall e, exit_code (Throw e) = 1).
Proof.
  intros Hw Hl.
  assert (Hm : main (S fuel) w = Some (validate w1))
    by (rewrite main_unfold, Hw, Hl; reflexivity).
  rewrite Hm, validate_unfold.
  split; [|split; [|split; [|split]]].
  - intros a b w2 w3 Ha Hb. rewrite Ha, Hb. split.
    + intros La. rewrite La. split; reflexivity.
    + intros La Lb. rewrite La, Lb. split; reflexivity.
  - intros e w2 Ha. rewrite Ha.
    rewrite (allowance_read_throw_inv _ _ _ Ha). split; reflexivity.
  - intros a e w2 w3 Ha Hb. rewrite Ha, Hb.
    rewrite (balance_read_throw_inv _ _ _ Hb). split; reflexivity.
  - discriminate.
  - reflexivity.
Qed.

Lemma validation_failure_is_named_witness :
  exists w3,
    main 1 approve_unconfirmed =
      Some (Throw (Error "Allowance is not set correctly"), w3)
    /\ Node.allowance w3 fundingWallet permit2 = 0
    /\ balanceOf w3 fundingWallet = target.
Proof.
  set (w0 := snd (wait_anvil 5 false approve_unconfirmed)).
  set (w1 := snd (for_entries steps true w0)).
  set (w2 := snd (_fundingAllowanceCheck w1)).
  set (w3 := snd (_fundingBalanceCheck w2)).
  exists w3. split; [|split; vm_compute; reflexivity].
  refine (proj2 (proj1 (proj1 (validation_failure_is_named 0
                                 approve_unconfirmed w0 w1 _ _)
                          (JS.Digits 0) (JS.Digits target) w2 w3 _ _) _));
    vm_compute; reflexivity.
Defined.

(** ** Readiness *)

Example ready_at_fourth_proceeds :
  fst (wait_anvil 5 false
         (anvil 0 0 0 ∅ [] (repeat Unreachable 3 ++ [Answered (JS.Digits 100)])))
  = Return tt.
Proof. vm_compute. reflexivity. Qed.

Lemma ping_unfold (w : World) :
  pingAnvil w = (Return (alive (hd Unreachable (probes w))), snd (fetch_blockNumber w)).
Proof.
  unfold pingAnvil, fetch_blockNumber, alive.
  destruct (hd Unreachable (probes w)) as [|r]; [reflexivity|].
  destruct (JS.gt (JS.parseInt r) (JS.Num 0)); reflexivity.
Qed.

(** An answer to the fifth request comes too late, whatever it is. *)
Lemma wait_anvil_fifth_attempt (w : World) (p1 p2 p3 p4 p5 : Probe) (rest : list Probe) :
  probes w = p1 :: p2 :: p3 :: p4 :: p5 :: rest ->
  alive p1 = false -> alive p2 = false -> alive p3 = false -> alive p4 = false ->
  fst (wait_anvil 5 false w) = Throw (Error "Could not connect to Anvil")
  /\ trace (snd (wait_anvil 5 false w)) = trace w.
Proof.
  intros Hp H1 H2 H3 H4.
  cbn [wait_anvil negb Nat.eqb]. unfold bind.
  rewrite !ping_unfold; cbn [fst snd fetch_blockNumber probes hd tl].
  rewrite Hp; cbn [hd tl negb]. rewrite H1; cbn [negb].
  rewrite !ping_unfold; cbn [fst snd fetch_blockNumber probes hd tl].
  rewrite H2; cbn [negb].
  rewrite !ping_unfold; cbn [fst snd fetch_blockNumber probes hd tl].
  rewrite H3; cbn [negb].
  rewrite !ping_unfold; cbn [fst snd fetch_blockNumber probes hd tl].
  rewrite H4; cbn [negb].
  rewrite !ping_unfold; cbn [fst snd fetch_blockNumber probes hd tl trace throw].
  split; reflexivity.
Qed.

(** C8 (the code does not do this) — Readiness prober.  The node fails
    the first four liveness requests and answers the fifth, the last one of
    the budget, with a positive block height: [pingAnvil] reports [true] on
    that attempt, and [main] still raises "Could not connect to Anvil",
    exits with code 1 and spawns no command. *)
Theorem ready_on_last_attempt_aborts :
  map alive (probes ready_at_fifth) = [false; false; false; false; true]
  /\ fst (pingAnvil (after_attempts pingAnvil 4 ready_at_fifth)) = Return true
  /\ exists w',
       main 1 ready_at_fifth = Some (Throw (Error "Could not connect to Anvil"), w')
       /\ exit_code (Throw (Error "Could not connect to Anvil")) = 1
       /\ trace w' = [].
Proof.
  split; [vm_compute; reflexivity|]. split; [vm_compute; reflexivity|].
  eexists. split; [vm_compute; reflexivity|]. split; reflexivity.
Qed.

(** ** The first call of a step *)

(** An exception of the first, direct call of a step leaves [execute] at
    once: the retry executor is not involved. *)
Lemma first_call_exception_escapes (step : string) (fn : Async bool)
    (post : list (string * Async bool)) (fuel : nat) (w w' : World) (e : Exn) :
  fn w = (Throw e, w') ->
  execute_with ((step, fn) :: post) (S fuel) w = Some (Throw e, w').
Proof.
  intros H. rewrite execute_with_once. simpl. unfold bind.
  rewrite run_step_unfold, H. reflexivity.
Qed.

(** C9 (the code does not do this) — Exception boundary.  The first spawn
    of the run cannot be started and every later one can.  The retry
    executor, asked to run the impersonation from that state, catches the
    exception and succeeds at its second attempt; [execute] calls the step
    directly first, so the exception leaves [main] after a single spawn
    and nothing is retried. *)
Theorem launch_failure_is_not_retried :
  fst (retry (_impersonateAccount whale) default_retries
         (snd (wait_anvil 5 false first_launch_fails))) = Return true
  /\ exists w',
       main 1 first_launch_fails = Some (Throw SpawnError, w')
       /\ trace w' = [RpcImpersonate whale].
Proof.
  split; [vm_compute; reflexivity|].
  eexists. split; vm_compute; reflexivity.
Qed.
